(** * manta.core.reply_handler: response processing and tool dispatch

    A shallow embedding of [src/manta/core/reply_handler.py].  The methods of
    [ReplyHandler] become functions in a state-and-exception monad over a
    store that holds the shared [ConversationHistory], the console and the
    outside world of the tools.  The collaborators whose code lives in other
    modules ([ToolManager], [LLMClient]) are records of methods. *)

From Stdlib Require Import Ascii String NArith.
From stdpp Require Import base option list strings gmap.

(** ** Python strings

    A [str] is modelled as a [string] whose characters are the code points
    U+0000..U+00FF.  [isspace] and [lower] follow CPython on that range. *)
Module Str.

  (** [str.isspace] on one code point: TAB..CR, FS..US, SPACE, NEL, NBSP. *)
Definition isspace (c : ascii) : bool :=
    let n := N_of_ascii c in
    ((9 <=? n) && (n <=? 13) || (28 <=? n) && (n <=? 32)
     || (n =? 133) || (n =? 160))%N.

  (** [str.lower] on one code point: A..Z and the Latin-1 capitals
      U+00C0..U+00DE (without the multiplication sign U+00D7) move by 32. *)
Definition lower_char (c : ascii) : ascii :=
    let n := N_of_ascii c in
    if ((65 <=? n) && (n <=? 90)
        || (192 <=? n) && (n <=? 222) && negb (n =? 215))%N
    then ascii_of_N (n + 32) else c.

Fixpoint lower (s : string) : string :=
    match s with
    | EmptyString => EmptyString
    | String c s' => String (lower_char c) (lower s')
    end.

Fixpoint lstrip (s : string) : string :=
    match s with
    | EmptyString => EmptyString
    | String c s' => if isspace c then lstrip s' else s
    end.

Fixpoint rstrip (s : string) : string :=
    match s with
    | EmptyString => EmptyString
    | String c s' =>
        match rstrip s' with
        | EmptyString => if isspace c then EmptyString else String c EmptyString
        | r => String c r
        end
    end.

Definition strip (s : string) : string := rstrip (lstrip s).

  (** Truth value of a [str]: only the empty string is false. *)
Definition truthy (s : string) : bool :=
    match s with EmptyString => false | String _ _ => true end.

  (** The line terminator written by [print]. *)
Definition newline : string := String (ascii_of_N 10) EmptyString.

End Str.

(** Values of type [Optional[str]]: truth value, and the text produced by
    [str(x)] and by [{x}] in an f-string. *)
Definition truthy (x : option string) : bool :=
  match x with None => false | Some s => Str.truthy s end.

Definition py_str (x : option string) : string :=
  match x with None => "None" | Some s => s end.

(** A field that holds a text with at least one character, and a field
    that holds none: absent, or the empty text. *)
Definition has_text (x : option string) (s : string) : Prop :=
  x = Some s ∧ s ≠ "".

Definition no_text (x : option string) : Prop := x = None ∨ x = Some "".

(** ** Data *)

(** A parameter mapping: [dict] from parameter name to raw text. *)
Abbreviation Params := (gmap string string).

Module Message.
Record t : Type := mk { role : string; content : string }.
End Message.

(** Modelled from the spec: the class [ToolResult] is declared in
    [manta.tools], outside this file; section 3 gives its shape,
    [{message: optional text, data: optional text}]. *)
Module ToolResult.
Record t : Type := mk { message : option string; data : option string }.
End ToolResult.

Inductive ResponseType : Type := TOOL_CALL | FINAL_RESPONSE.

Module ProcessedResponse.
Record t : Type := mk {
    type : ResponseType;
    content : string;
    tool_name : option string;
    tool_params : option Params
  }.
End ProcessedResponse.

(** Exceptions that can leave a method. *)
Inductive Exn : Type :=
| EOFError
| Exception (msg : string).

Inductive Result (A : Type) : Type :=
| Ok (a : A)
| Raise (e : Exn).
Arguments Ok {A} a.
Arguments Raise {A} e.

(** Calls a method makes on its collaborators, in the order they happen. *)
Inductive Call : Type :=
| add_message_call (role content : string)
| parse_tool_use_call (response : string)
| execute_tool_call (tool : string) (params : Params)
| chat_call (context : list Message.t)
| logging_debug_call (msg : string).

(** ** The store *)

(** What tools and the backend can touch: the console and an outside world
    [Env] (files, shell, network) that the handler itself never inspects. *)
Record World (Env : Type) : Type := mkWorld {
  stdin : list string;
  stdout : list string;
  env : Env
}.
Arguments mkWorld {Env} _ _ _.
Arguments stdin {Env} _.
Arguments stdout {Env} _.
Arguments env {Env} _.

Record State (Env : Type) : Type := mkState {
  conversations : list Message.t;
  world : World Env;
  calls : list Call
}.
Arguments mkState {Env} _ _ _.
Arguments conversations {Env} _.
Arguments world {Env} _.
Arguments calls {Env} _.

Definition M (Env A : Type) : Type := State Env -> Result A * State Env.

Definition ret {Env A} (a : A) : M Env A := fun st => (Ok a, st).

Definition bind {Env A B} (m : M Env A) (k : A -> M Env B) : M Env B :=
  fun st =>
    match m st with
    | (Ok a, st') => k a st'
    | (Raise e, st') => (Raise e, st')
    end.

Declare Scope handler_scope.
Delimit Scope handler_scope with handler.
Notation "x <- m ;; k" := (bind m (fun x => k))
  (at level 100, m at next level, right associativity) : handler_scope.
Notation "m ;;; k" := (bind m (fun _ => k))
  (at level 100, right associativity) : handler_scope.

Definition record_call {Env} (c : Call) : M Env unit :=
  fun st => (Ok tt, mkState (conversations st) (world st) (calls st ++ [c])).

(** ** Collaborators *)

(** Modelled from the spec: [ConversationHistory] lives in
    [manta.session.history], outside this file.  Sections 2 and 3 give it as
    an append-only ordered log: [add_message] puts one message at the end,
    [get_context] hands out the log as it stands. *)
Module ConversationHistory.
Definition add_message {Env} (role content : string) : M Env unit :=
    fun st =>
      (Ok tt,
       mkState (conversations st ++ [Message.mk role content]) (world st)
               (calls st ++ [add_message_call role content])).

Definition get_context {Env} : M Env (list Message.t) :=
    fun st => (Ok (conversations st), st).
End ConversationHistory.

(** [ToolManager] lives in [manta.tools.manager]; here it is the interface
    the handler calls.  The parser is a total function (section 4.2: it never
    fails the turn); [execute_tool] acts on the world and may raise. *)
Module ToolManager.
Record t (Env : Type) : Type := mk {
    parse_tool_use : string -> option string * option Params;
    execute_tool : string -> Params -> World Env -> Result ToolResult.t * World Env
  }.
Arguments mk {Env} _ _.
Arguments parse_tool_use {Env} _ _.
Arguments execute_tool {Env} _ _ _ _.
End ToolManager.

(** [LLMClient] lives in [manta.llm.client]; [chat] may raise. *)
Module LLMClient.
Record t (Env : Type) : Type := mk {
    chat : list Message.t -> World Env -> Result string * World Env
  }.
Arguments mk {Env} _.
Arguments chat {Env} _ _ _.
End LLMClient.

(** The collaborators' methods as steps of the monad: each call is noted in
    the trace; the conversation is out of their reach. *)
Definition ToolManager_call_parse_tool_use {Env} (tm : ToolManager.t Env)
  (response : string) : M Env (option string * option Params) :=
  fun st =>
    (Ok (ToolManager.parse_tool_use tm response),
     mkState (conversations st) (world st)
             (calls st ++ [parse_tool_use_call response])).

Definition ToolManager_call_execute_tool {Env} (tm : ToolManager.t Env)
  (tool : string) (params : Params) : M Env ToolResult.t :=
  fun st =>
    let '(r, w) := ToolManager.execute_tool tm tool params (world st) in
    (r, mkState (conversations st) w (calls st ++ [execute_tool_call tool params])).

Definition LLMClient_call_chat {Env} (llm : LLMClient.t Env)
  (context : list Message.t) : M Env string :=
  fun st =>
    let '(r, w) := LLMClient.chat llm context (world st) in
    (r, mkState (conversations st) w (calls st ++ [chat_call context])).

(** [logging.debug]: the record is noted in the call trace. *)
Definition logging_debug {Env} (msg : string) : M Env unit :=
  record_call (logging_debug_call msg).

(** ** ReplyHandler *)
Module ReplyHandler.

  (** The fields set by [__init__]; [self.conversations] is the shared
      object held in the store. *)
Record t (Env : Type) : Type := mk {
    api_handler : LLMClient.t Env;
    tool_manager : ToolManager.t Env
  }.
Arguments mk {Env} _ _.
Arguments api_handler {Env} _.
Arguments tool_manager {Env} _.

Section Methods.
Context {Env : Type}.
Local Open Scope handler_scope.

Definition permission_prompt (tool : string) : string :=
      "Do you want to execute the tool '" +:+ tool +:+ "'? (yes/no): ".

Definition permission_reminder : string :=
      "Please answer 'yes' or 'no'." +:+ Str.newline.

    (** The [while True] loop of [_ask_permission] over the lines still to
        be read.  [input] writes the prompt and takes one line, raising
        [EOFError] when none is left; [print] writes the reminder. *)
Fixpoint ask_permission_loop (tool : string) (lines out : list string)
      : Result bool * (list string * list string) :=
      match lines with
      | [] => (Raise EOFError, ([], out ++ [permission_prompt tool]))
      | line :: rest =>
          let response := Str.lower (Str.strip line) in
          if bool_decide (response ∈ ["yes"; "no"])
          then (Ok (bool_decide (response = "yes")),
                (rest, out ++ [permission_prompt tool]))
          else ask_permission_loop tool rest
                 (out ++ [permission_prompt tool; permission_reminder])
      end.

Definition _ask_permission (tool : string) : M Env bool :=
      fun st =>
        let w := world st in
        let '(r, (lines, out)) := ask_permission_loop tool (stdin w) (stdout w) in
        (r, mkState (conversations st) (mkWorld lines out (env w)) (calls st)).


(** [process_response]: record the reply, parse it, classify by the truth
    value of the tool name. *)
Definition process_response (self : t Env) (response : string)
  : M Env ProcessedResponse.t :=
  ConversationHistory.add_message "assistant" response ;;;
  r <- ToolManager_call_parse_tool_use (tool_manager self) response ;;
  let '(tool, params) := r in
  if truthy tool
  then ret (ProcessedResponse.mk TOOL_CALL response tool params)
  else ret (ProcessedResponse.mk FINAL_RESPONSE response None None).

(** [execute_tool]: run the tool, add its message and its data to the
    conversation when they are true values, return the message. *)
Definition execute_tool (self : t Env) (tool : string) (params : Params)
  : M Env (option string) :=
  result <- ToolManager_call_execute_tool (tool_manager self) tool params ;;
  (if truthy (ToolResult.message result)
   then ConversationHistory.add_message "user" (py_str (ToolResult.message result))
   else ret tt) ;;;
  (if truthy (ToolResult.data result)
   then ConversationHistory.add_message "user" (py_str (ToolResult.data result))
   else ret tt) ;;;
  ret (ToolResult.message result).

Definition get_next_response (self : t Env) : M Env string :=
  context <- ConversationHistory.get_context ;;
  LLMClient_call_chat (api_handler self) context.

(** [handle_tool_denial]: [tool] is [str | None]. *)
Definition handle_tool_denial (self : t Env) (tool : option string) : M Env unit :=
  let denial_message := "Tool execution denied: " +:+ py_str tool in
  ConversationHistory.add_message "user" denial_message ;;;
  logging_debug ("Tool '" +:+ py_str tool +:+ "' execution was denied by the user.").

End Methods.
End ReplyHandler.

(** ** A registry-backed tool manager

    Modelled from the spec: [ToolManager.execute_tool] and the tool classes
    live in [manta.tools], outside this file.  Sections 4.1, 4.4, 6 and 7
    give the contract: [resolve] fails with [UnknownToolError] on a name that
    is not registered, a handler returns a [ToolResult] or fails with a
    [ToolError] that carries a readable message, and either failure is caught
    and turned into a [ToolResult]-shaped error message.  The wording of that
    message is not fixed by the spec: it is the function [describe]. *)
Module ToolRegistry.

Inductive ToolError : Type :=
| UnknownToolError (name : string)
| ToolExecutionError (message : string).

Record ToolDescriptor (Env : Type) : Type := mkTool {
  usage_text : string;
  handler : Params -> World Env -> (ToolError + ToolResult.t) * World Env
}.
Arguments mkTool {Env} _ _.
Arguments usage_text {Env} _.
Arguments handler {Env} _ _ _.

Section Registry.
Context {Env : Type}.

Definition resolve (registry : gmap string (ToolDescriptor Env)) (name : string)
  : ToolError + (Params -> World Env -> (ToolError + ToolResult.t) * World Env) :=
  match registry !! name with
  | Some tool => inr (handler tool)
  | None => inl (UnknownToolError name)
  end.

Definition error_result (describe : ToolError -> string) (e : ToolError)
  : ToolResult.t :=
  ToolResult.mk (Some (describe e)) None.

Definition execute_tool (registry : gmap string (ToolDescriptor Env))
  (describe : ToolError -> string) (name : string) (params : Params)
  (w : World Env) : Result ToolResult.t * World Env :=
  match resolve registry name with
  | inl e => (Ok (error_result describe e), w)
  | inr run =>
      match run params w with
      | (inl e, w') => (Ok (error_result describe e), w')
      | (inr result, w') => (Ok result, w')
      end
  end.

Definition manager (registry : gmap string (ToolDescriptor Env))
  (describe : ToolError -> string)
  (parse : string -> option string * option Params) : ToolManager.t Env :=
  ToolManager.mk parse (execute_tool registry describe).

End Registry.
End ToolRegistry.

(** ** Sessions: sequences of handler operations *)

Inductive Operation : Type :=
| process_response_op (response : string)
| execute_tool_op (tool : string) (params : Params)
| handle_tool_denial_op (tool : option string).

Section Sessions.
Context {Env : Type}.

(** The store after one operation, whether it returned or raised. *)
Definition perform (self : ReplyHandler.t Env) (op : Operation)
  (st : State Env) : State Env :=
  match op with
  | process_response_op response =>
      snd (ReplyHandler.process_response self response st)
  | execute_tool_op tool params =>
      snd (ReplyHandler.execute_tool self tool params st)
  | handle_tool_denial_op tool =>
      snd (ReplyHandler.handle_tool_denial self tool st)
  end.

Fixpoint perform_all (self : ReplyHandler.t Env) (ops : list Operation)
  (st : State Env) : State Env :=
  match ops with
  | [] => st
  | op :: ops' => perform_all self ops' (perform self op st)
  end.

End Sessions.

(** The messages handed to [add_message] by a run of calls, in call order. *)
Definition added_messages (cs : list Call) : list Message.t :=
  omap (fun c => match c with
                 | add_message_call role content => Some (Message.mk role content)
                 | _ => None
                 end) cs.

(** The tool executions in a run of calls. *)
Definition tool_executions (cs : list Call) : list (string * Params) :=
  omap (fun c => match c with
                 | execute_tool_call tool params => Some (tool, params)
                 | _ => None
                 end) cs.

(** ** Vocabulary of the permission gate *)

(** A line as the gate compares it: trimmed, then lower-cased. *)
Definition normalised (line : string) : string := Str.lower (Str.strip line).

(** A line that settles the question: it normalises to yes or to no. *)
Definition decisive (line : string) : Prop := normalised line ∈ ["yes"; "no"].

#[global] Instance decisive_dec (line : string) : Decision (decisive line) :=
  list_elem_of_dec (normalised line) ["yes"; "no"].

(** What the console shows for [n] lines that were not decisive: each time
    the prompt, then the reminder. *)
Fixpoint reprompts (tool : string) (n : nat) : list string :=
  match n with
  | O => []
  | S n' =>
      ReplyHandler.permission_prompt tool
        :: ReplyHandler.permission_reminder :: reprompts tool n'
  end.

(** ** Vocabulary of answers and sessions *)

(** A text made of whitespace only, and a text without any whitespace. *)
Fixpoint all_space (s : string) : bool :=
  match s with
  | EmptyString => true
  | String c s' => Str.isspace c && all_space s'
  end.

Fixpoint no_space (s : string) : bool :=
  match s with
  | EmptyString => true
  | String c s' => negb (Str.isspace c) && no_space s'
  end.

(** The responses handed to [process_response] in a sequence of operations,
    and the tools handed to [execute_tool], in the order of the sequence. *)
Definition processed_responses (ops : list Operation) : list string :=
  omap (fun op => match op with
                  | process_response_op response => Some response
                  | _ => None
                  end) ops.

Definition executed_tools (ops : list Operation) : list (string * Params) :=
  omap (fun op => match op with
                  | execute_tool_op tool params => Some (tool, params)
                  | _ => None
                  end) ops.

(** The texts of the assistant messages of a conversation, in order. *)
Definition assistant_messages (ms : list Message.t) : list string :=
  omap (fun m => if bool_decide (Message.role m = "assistant")
                 then Some (Message.content m) else None) ms.

(** A tool manager whose every execution raises. *)
Definition failing_tools : ToolManager.t unit :=
  ToolManager.mk (fun _ => (None, None))
    (fun _ _ w => (Raise (Exception "tool crashed"), w)).

(** ** Sample collaborators, used to evaluate the handler on inputs *)

Definition no_backend : LLMClient.t unit :=
  LLMClient.mk (fun _ w => (Raise (Exception "backend unreachable"), w)).

Definition fresh (lines : list string) : State unit :=
  mkState [] (mkWorld lines [] tt) [].


(** A toy parser: one directive with a tool name, one with an empty name. *)
Definition sample_parse (response : string) : option string * option Params :=
  if bool_decide (response = "<read_file><path>notes.txt</path></read_file>")
  then (Some "read_file", Some {[ "path" := "notes.txt" ]})
  else if bool_decide (response = "<><path>notes.txt</path></>")
  then (Some "", Some {[ "path" := "notes.txt" ]})
  else (None, None).

(** A tool manager whose [read_file] finds an empty file: a message and an
    empty text as data.  Any other tool returns nothing. *)
Definition sample_tools : ToolManager.t unit :=
  ToolManager.mk sample_parse
    (fun tool _ w =>
       if bool_decide (tool = "read_file")
       then (Ok (ToolResult.mk (Some "File read successfully") (Some "")), w)
       else (Ok (ToolResult.mk None None), w)).

Definition sample_handler : ReplyHandler.t unit :=
  ReplyHandler.mk no_backend sample_tools.

(** A registry with one tool, whose handler fails on a missing path. *)
Definition sample_describe (e : ToolRegistry.ToolError) : string :=
  match e with
  | ToolRegistry.UnknownToolError name => "Unknown tool: " +:+ name
  | ToolRegistry.ToolExecutionError message => "Error executing tool: " +:+ message
  end.

Definition sample_registry : gmap string (ToolRegistry.ToolDescriptor unit) :=
  {[ "read_file" :=
       ToolRegistry.mkTool "read_file: read the file at <path>"
         (fun params w =>
            match params !! "path" with
            | Some p => (inr (ToolResult.mk (Some ("Read " +:+ p)) (Some "hello")), w)
            | None => (inl (ToolRegistry.ToolExecutionError "missing path"), w)
            end) ]}.

Definition sample_registry_handler : ReplyHandler.t unit :=
  ReplyHandler.mk no_backend
    (ToolRegistry.manager sample_registry sample_describe sample_parse).

(** * Properties *)

Section GateFacts.
Context {Env : Type}.

Lemma ask_permission_loop_decisive (tool : string) (pre : list string)
  (x : string) (post out : list string) :
  Forall (fun l => ¬ decisive l) pre ->
  decisive x ->
  ReplyHandler.ask_permission_loop tool (pre ++ x :: post) out
  = (Ok (bool_decide (normalised x = "yes")),
     (post, out ++ reprompts tool (length pre)
                ++ [ReplyHandler.permission_prompt tool])).
Proof.
  intros Hpre Hx. revert out.
  induction Hpre as [|l pre Hl _ IH]; intros out; simpl.
  - fold (normalised x). rewrite bool_decide_eq_true_2 by exact Hx.
    reflexivity.
  - fold (normalised l). rewrite bool_decide_eq_false_2 by exact Hl.
    rewrite IH. rewrite <- !app_assoc. reflexivity.
Qed.

Lemma ask_permission_loop_eof (tool : string) (lines out : list string) :
  Forall (fun l => ¬ decisive l) lines ->
  ReplyHandler.ask_permission_loop tool lines out
  = (Raise EOFError,
     ([], out ++ reprompts tool (length lines)
              ++ [ReplyHandler.permission_prompt tool])).
Proof.
  intros H. revert out.
  induction H as [|l lines Hl _ IH]; intros out; simpl.
  - reflexivity.
  - fold (normalised l). rewrite bool_decide_eq_false_2 by exact Hl.
    rewrite IH. rewrite <- !app_assoc. reflexivity.
Qed.

(** Every input either has a first decisive line or has none at all. *)
Lemma first_decisive_split (lines : list string) :
  Forall (fun l => ¬ decisive l) lines
  ∨ ∃ pre x post, lines = pre ++ x :: post
                  ∧ Forall (fun l => ¬ decisive l) pre ∧ decisive x.
Proof.
  induction lines as [|l lines IH].
  - left. constructor.
  - destruct (decide (decisive l)) as [Hl|Hl].
    + right. exists [], l, lines. split; [reflexivity|]. split; [constructor|exact Hl].
    + destruct IH as [IH|(pre & x & post & -> & Hpre & Hx)].
      * left. constructor; assumption.
      * right. exists (l :: pre), x, post.
        split; [reflexivity|]. split; [constructor; assumption|exact Hx].
Qed.

(** The first decisive line of an input is unique. *)
Lemma first_decisive_unique (pre1 pre2 : list string) (x1 x2 : string)
  (post1 post2 : list string) :
  pre1 ++ x1 :: post1 = pre2 ++ x2 :: post2 ->
  Forall (fun l => ¬ decisive l) pre1 -> decisive x1 ->
  Forall (fun l => ¬ decisive l) pre2 -> decisive x2 ->
  pre1 = pre2 ∧ x1 = x2 ∧ post1 = post2.
Proof.
  revert pre2. induction pre1 as [|a pre1 IH]; intros [|b pre2] Heq H1 Hx1 H2 Hx2;
    simpl in Heq.
  - injection Heq as -> ->. auto.
  - injection Heq as -> _. inversion H2; subst. contradiction.
  - injection Heq as -> _. inversion H1; subst. contradiction.
  - injection Heq as -> Heq. inversion H1; subst. inversion H2; subst.
    destruct (IH pre2 Heq) as (-> & -> & ->); auto.
Qed.

(** C3: [_ask_permission] returns [True] exactly when the first line of the
    input that, trimmed and lower-cased, is yes or no is yes; and when the
    input has such a first line, every line before it is answered by the
    reminder and a new prompt, nothing is returned for them, and the value
    returned tells whether that line is yes.  The lines after it stay
    unread. *)
Theorem ask_permission_first_decisive_answer (tool : string) (st : State Env) :
  (fst (ReplyHandler._ask_permission tool st) = Ok true
   ↔ ∃ pre x post,
       stdin (world st) = pre ++ x :: post
       ∧ Forall (fun l => ¬ decisive l) pre
       ∧ normalised x = "yes")
  ∧ (∀ pre x post,
       stdin (world st) = pre ++ x :: post ->
       Forall (fun l => ¬ decisive l) pre ->
       decisive x ->
       ReplyHandler._ask_permission tool st
       = (Ok (bool_decide (normalised x = "yes")),
          mkState (conversations st)
            (mkWorld post
               (stdout (world st) ++ reprompts tool (length pre)
                  ++ [ReplyHandler.permission_prompt tool])
               (env (world st)))
            (calls st))).
Proof.
  assert (Hrun : ∀ pre x post,
            stdin (world st) = pre ++ x :: post ->
            Forall (fun l => ¬ decisive l) pre ->
            decisive x ->
            ReplyHandler._ask_permission tool st
            = (Ok (bool_decide (normalised x = "yes")),
               mkState (conversations st)
                 (mkWorld post
                    (stdout (world st) ++ reprompts tool (length pre)
                       ++ [ReplyHandler.permission_prompt tool])
                    (env (world st)))
                 (calls st))).
  { intros pre x post Hin Hpre Hx. unfold ReplyHandler._ask_permission.
    rewrite Hin, (ask_permission_loop_decisive tool pre x post _ Hpre Hx).
    reflexivity. }
  split; [split|exact Hrun].
  - intros Hret.
    destruct (first_decisive_split (stdin (world st)))
      as [Hnone|(pre & x & post & Hin & Hpre & Hx)].
    + unfold ReplyHandler._ask_permission in Hret.
      rewrite (ask_permission_loop_eof tool _ _ Hnone) in Hret.
      simpl in Hret. discriminate.
    + exists pre, x, post. split; [exact Hin|]. split; [exact Hpre|].
      rewrite (Hrun pre x post Hin Hpre Hx) in Hret. simpl in Hret.
      injection Hret as Hret. apply bool_decide_eq_true_1 in Hret. exact Hret.
  - intros (pre & x & post & Hin & Hpre & Hx).
    assert (Hdec : decisive x).
    { unfold decisive. rewrite Hx. apply list_elem_of_here. }
    rewrite (Hrun pre x post Hin Hpre Hdec). simpl.
    rewrite bool_decide_eq_true_2 by exact Hx. reflexivity.
Qed.

End GateFacts.

Lemma ask_permission_first_decisive_answer_witness :
  (stdin (world (fresh ["maybe"; "  YES "; "no"])) = ["maybe"] ++ "  YES " :: ["no"]
   ∧ Forall (fun l => ¬ decisive l) ["maybe"]
   ∧ decisive "  YES ")
  ∧ ReplyHandler._ask_permission "read_file" (fresh ["maybe"; "  YES "; "no"])
    = (Ok true,
       mkState []
         (mkWorld ["no"]
            [ReplyHandler.permission_prompt "read_file";
             ReplyHandler.permission_reminder;
             ReplyHandler.permission_prompt "read_file"] tt) []).
Proof.
  assert (H1 : Forall (fun l => ¬ decisive l) ["maybe"]).
  { constructor; [|constructor]. apply (bool_decide_eq_false_1 _). vm_compute. reflexivity. }
  assert (H2 : decisive "  YES ").
  { apply (bool_decide_eq_true_1 _). vm_compute. reflexivity. }
  split; [split; [reflexivity|split; assumption]|].
  exact (proj2 (ask_permission_first_decisive_answer "read_file"
                  (fresh ["maybe"; "  YES "; "no"]))
           ["maybe"] "  YES " ["no"] eq_refl H1 H2).
Defined.

Section HandlerFacts.
Context {Env : Type}.
Implicit Types (self : ReplyHandler.t Env) (st : State Env).

Lemma truthy_has_text (x : option string) (s : string) :
  has_text x s -> truthy x = true ∧ py_str x = s.
Proof. intros [-> Hs]. destruct s; [contradiction|]. split; reflexivity. Qed.

Lemma truthy_no_text (x : option string) : no_text x -> truthy x = false.
Proof. intros [->| ->]; reflexivity. Qed.

(** The result and the store after [process_response]. *)
Lemma process_response_run self (response : string) st :
  ReplyHandler.process_response self response st
  = (Ok (let '(tool, params) :=
           ToolManager.parse_tool_use (ReplyHandler.tool_manager self) response in
         if truthy tool
         then ProcessedResponse.mk TOOL_CALL response tool params
         else ProcessedResponse.mk FINAL_RESPONSE response None None),
     mkState (conversations st ++ [Message.mk "assistant" response])
       (world st)
       (calls st ++ [add_message_call "assistant" response;
                     parse_tool_use_call response])).
Proof.
  unfold ReplyHandler.process_response, bind, ConversationHistory.add_message,
    ToolManager_call_parse_tool_use, ret. simpl.
  destruct (ToolManager.parse_tool_use _ response) as [tool params].
  destruct (truthy tool); simpl; rewrite <- app_assoc; reflexivity.
Qed.

(** C1: [process_response] hands the raw response to the conversation as an
    assistant message before it calls the parser; whatever the parser then
    says, the conversation has grown by exactly that message, the method
    returns, and nothing else in the store has changed. *)
Theorem process_response_records_raw_reply_first self (response : string) st :
  let out := ReplyHandler.process_response self response st in
  conversations (snd out)
  = conversations st ++ [Message.mk "assistant" response]
  ∧ calls (snd out)
    = calls st ++ [add_message_call "assistant" response;
                   parse_tool_use_call response]
  ∧ world (snd out) = world st
  ∧ ∃ r, fst out = Ok r.
Proof. rewrite process_response_run. simpl. eauto 10. Qed.

(** C2: when the parser reports a tool-call block (it returns a tool name,
    and the name is a true value) [process_response] returns a TOOL_CALL with
    that name and the parser's parameter mapping; when it reports none (the
    name is None) the result is a FINAL_RESPONSE whose content is the input
    unchanged.  In both cases the content is the input. *)
Theorem process_response_classification self (response : string) st :
  (∀ name params,
     ToolManager.parse_tool_use (ReplyHandler.tool_manager self) response
     = (Some name, params) ->
     name ≠ "" ->
     fst (ReplyHandler.process_response self response st)
     = Ok (ProcessedResponse.mk TOOL_CALL response (Some name) params))
  ∧ (fst (ToolManager.parse_tool_use (ReplyHandler.tool_manager self) response)
     = None ->
     fst (ReplyHandler.process_response self response st)
     = Ok (ProcessedResponse.mk FINAL_RESPONSE response None None)).
Proof.
  rewrite process_response_run. simpl. split.
  - intros name params -> Hname. destruct name; [contradiction|]. reflexivity.
  - destruct (ToolManager.parse_tool_use _ response) as [tool params].
    simpl. intros ->. reflexivity.
Qed.

(** C8: when the parser returns the empty string as tool name,
    [process_response] returns a FINAL_RESPONSE whose tool name and
    parameters are None, and no tool is executed. *)
Theorem process_response_empty_tool_name self (response : string) st :
  fst (ToolManager.parse_tool_use (ReplyHandler.tool_manager self) response)
  = Some "" ->
  let out := ReplyHandler.process_response self response st in
  fst out = Ok (ProcessedResponse.mk FINAL_RESPONSE response None None)
  ∧ tool_executions (calls (snd out)) = tool_executions (calls st).
Proof.
  rewrite process_response_run. simpl.
  destruct (ToolManager.parse_tool_use _ response) as [tool params].
  simpl. intros ->. split; [reflexivity|].
  unfold tool_executions. rewrite omap_app. simpl. apply app_nil_r.
Qed.

(** The store after [execute_tool], when the tool manager returns. *)
Lemma execute_tool_returned self (tool : string) (params : Params) st
  (result : ToolResult.t) (w : World Env) :
  ToolManager.execute_tool (ReplyHandler.tool_manager self) tool params (world st)
  = (Ok result, w) ->
  ReplyHandler.execute_tool self tool params st
  = (Ok (ToolResult.message result),
     let said :=
       (if truthy (ToolResult.message result)
        then [("user", py_str (ToolResult.message result))] else [])
       ++ (if truthy (ToolResult.data result)
           then [("user", py_str (ToolResult.data result))] else []) in
     mkState
       (conversations st ++ map (fun m => Message.mk m.1 m.2) said)
       w
       (calls st ++ execute_tool_call tool params
          :: map (fun m => add_message_call m.1 m.2) said)).
Proof.
  intros Hrun.
  unfold ReplyHandler.execute_tool, bind, ToolManager_call_execute_tool,
    ConversationHistory.add_message, ret.
  rewrite Hrun. simpl.
  destruct (truthy (ToolResult.message result)),
    (truthy (ToolResult.data result)); simpl;
    rewrite <- ?app_assoc, ?app_nil_r; reflexivity.
Qed.

(** The store after [execute_tool], when the tool manager raises. *)
Lemma execute_tool_raised self (tool : string) (params : Params) st
  (e : Exn) (w : World Env) :
  ToolManager.execute_tool (ReplyHandler.tool_manager self) tool params (world st)
  = (Raise e, w) ->
  ReplyHandler.execute_tool self tool params st
  = (Raise e,
     mkState (conversations st) w (calls st ++ [execute_tool_call tool params])).
Proof.
  intros Hrun.
  unfold ReplyHandler.execute_tool, bind, ToolManager_call_execute_tool.
  rewrite Hrun. reflexivity.
Qed.

(** C4, amended: after a tool execution that returns a result, the
    conversation has grown by the message and then the data when both are
    texts with at least one character, by the one that is such a text when
    only one is, and by nothing when neither is.  An absent field and an
    empty text count alike. *)
Theorem execute_tool_appends_nonempty_fields self (tool : string)
  (params : Params) st (result : ToolResult.t) (w : World Env) :
  ToolManager.execute_tool (ReplyHandler.tool_manager self) tool params (world st)
  = (Ok result, w) ->
  let after := conversations (snd (ReplyHandler.execute_tool self tool params st)) in
  (∀ m d, has_text (ToolResult.message result) m ->
          has_text (ToolResult.data result) d ->
          after = conversations st ++ [Message.mk "user" m; Message.mk "user" d])
  ∧ (∀ m, has_text (ToolResult.message result) m ->
          no_text (ToolResult.data result) ->
          after = conversations st ++ [Message.mk "user" m])
  ∧ (∀ d, no_text (ToolResult.message result) ->
          has_text (ToolResult.data result) d ->
          after = conversations st ++ [Message.mk "user" d])
  ∧ (no_text (ToolResult.message result) ->
     no_text (ToolResult.data result) ->
     after = conversations st).
Proof.
  intros Hrun. rewrite (execute_tool_returned _ _ _ _ _ _ Hrun). simpl.
  repeat split.
  - intros m d [Hm ->]%truthy_has_text [Hd ->]%truthy_has_text.
    rewrite Hm, Hd. reflexivity.
  - intros m [Hm ->]%truthy_has_text Hd%truthy_no_text.
    rewrite Hm, Hd. reflexivity.
  - intros d Hm%truthy_no_text [Hd ->]%truthy_has_text.
    rewrite Hm, Hd. reflexivity.
  - intros Hm%truthy_no_text Hd%truthy_no_text.
    rewrite Hm, Hd. simpl. apply app_nil_r.
Qed.

(** C9: [execute_tool] returns the message field of the tool result as it
    is, None included; when the tool manager raises, so does the method.
    The data field has no part in the value returned: when the tool manager
    returns a result, the data goes to the conversation only, as the last
    user message added, after the message if that was added too; the tool
    manager has been called once, and the world is as it left it. *)
Theorem execute_tool_returns_message self (tool : string) (params : Params) st :
  let out := ReplyHandler.execute_tool self tool params st in
  fst out
  = match fst (ToolManager.execute_tool (ReplyHandler.tool_manager self)
                 tool params (world st)) with
    | Ok result => Ok (ToolResult.message result)
    | Raise e => Raise e
    end
  ∧ (∀ result w,
       ToolManager.execute_tool (ReplyHandler.tool_manager self)
         tool params (world st) = (Ok result, w) ->
       let said_message :=
         if truthy (ToolResult.message result)
         then [Message.mk "user" (py_str (ToolResult.message result))] else [] in
       let said_data :=
         if truthy (ToolResult.data result)
         then [Message.mk "user" (py_str (ToolResult.data result))] else [] in
       fst out = Ok (ToolResult.message result)
       ∧ conversations (snd out) = conversations st ++ said_message ++ said_data
       ∧ world (snd out) = w
       ∧ tool_executions (calls (snd out))
         = tool_executions (calls st) ++ [(tool, params)]
       ∧ (∀ d, has_text (ToolResult.data result) d ->
               last (conversations (snd out)) = Some (Message.mk "user" d))).
Proof.
  split.
  - destruct (ToolManager.execute_tool (ReplyHandler.tool_manager self)
                tool params (world st)) as [[result|e] w] eqn:Hrun.
    + rewrite (execute_tool_returned _ _ _ _ _ _ Hrun). reflexivity.
    + rewrite (execute_tool_raised _ _ _ _ _ _ Hrun). reflexivity.
  - intros result w Hrun.
    rewrite (execute_tool_returned _ _ _ _ _ _ Hrun). simpl.
    split; [reflexivity|].
    split.
    { destruct (truthy (ToolResult.message result)),
        (truthy (ToolResult.data result)); reflexivity. }
    split; [reflexivity|].
    split.
    { unfold tool_executions. rewrite omap_app. f_equal. simpl. f_equal.
      destruct (truthy (ToolResult.message result)),
        (truthy (ToolResult.data result)); reflexivity. }
    intros d [Hd ->]%truthy_has_text. rewrite Hd.
    rewrite map_app, app_assoc. simpl. apply last_snoc.
Qed.

(** The store after [handle_tool_denial], for a name or for None. *)
Lemma handle_tool_denial_run self (tool : option string) st :
  ReplyHandler.handle_tool_denial self tool st
  = (Ok tt,
     mkState
       (conversations st
          ++ [Message.mk "user" ("Tool execution denied: " +:+ py_str tool)])
       (world st)
       (calls st
          ++ [add_message_call "user" ("Tool execution denied: " +:+ py_str tool);
              logging_debug_call
                ("Tool '" +:+ py_str tool +:+ "' execution was denied by the user.")])).
Proof.
  unfold ReplyHandler.handle_tool_denial, bind, ConversationHistory.add_message,
    logging_debug, record_call. simpl. rewrite <- app_assoc. reflexivity.
Qed.

(** C5: for every tool name, [handle_tool_denial] adds exactly one message
    to the conversation, a user message with the text
    "Tool execution denied: <name>"; it executes no tool, and it leaves the
    earlier messages, the console and the outside world as they were.  Its
    only other call is the debug log record. *)
Theorem handle_tool_denial_frame self (name : string) st :
  let out := ReplyHandler.handle_tool_denial self (Some name) st in
  fst out = Ok tt
  ∧ conversations (snd out)
    = conversations st ++ [Message.mk "user" ("Tool execution denied: " +:+ name)]
  ∧ world (snd out) = world st
  ∧ tool_executions (calls (snd out)) = tool_executions (calls st)
  ∧ calls (snd out)
    = calls st
        ++ [add_message_call "user" ("Tool execution denied: " +:+ name);
            logging_debug_call
              ("Tool '" +:+ name +:+ "' execution was denied by the user.")].
Proof.
  rewrite handle_tool_denial_run. simpl. repeat split.
  unfold tool_executions. rewrite omap_app. simpl. apply app_nil_r.
Qed.

(** C10: [handle_tool_denial] takes None for the tool name; it then returns
    normally and the message it adds is the user message
    "Tool execution denied: None". *)
Theorem handle_tool_denial_none self st :
  let out := ReplyHandler.handle_tool_denial self None st in
  fst out = Ok tt
  ∧ conversations (snd out)
    = conversations st ++ [Message.mk "user" "Tool execution denied: None"].
Proof. rewrite handle_tool_denial_run. simpl. split; reflexivity. Qed.

(** *** Failures of the registry-backed manager *)

(** C6: with the registry-backed tool manager whose error texts are never
    empty, [execute_tool] always returns; for a tool name that the registry
    does not hold, and for a handler that fails, the error text is added to
    the conversation as a user message and is the value returned. *)
Theorem execute_tool_recovers_failures
  (registry : gmap string (ToolRegistry.ToolDescriptor Env))
  (describe : ToolRegistry.ToolError -> string)
  (parse : string -> option string * option Params)
  (llm : LLMClient.t Env) (tool : string) (params : Params) st :
  (∀ e, describe e ≠ "") ->
  let self := ReplyHandler.mk llm (ToolRegistry.manager registry describe parse) in
  let out := ReplyHandler.execute_tool self tool params st in
  (∃ v, fst out = Ok v)
  ∧ (registry !! tool = None ->
     let text := describe (ToolRegistry.UnknownToolError tool) in
     fst out = Ok (Some text)
     ∧ conversations (snd out) = conversations st ++ [Message.mk "user" text]
     ∧ world (snd out) = world st)
  ∧ (∀ d e w, registry !! tool = Some d ->
              ToolRegistry.handler d params (world st) = (inl e, w) ->
              fst out = Ok (Some (describe e))
              ∧ conversations (snd out)
                = conversations st ++ [Message.mk "user" (describe e)]
              ∧ world (snd out) = w).
Proof.
  intros Hne self out.
  assert (Herr : ∀ e, truthy (Some (describe e)) = true).
  { intros e. specialize (Hne e). simpl. destruct (describe e); [contradiction|reflexivity]. }
  assert (Hfail : ∀ e w,
            ToolRegistry.execute_tool registry describe tool params (world st)
            = (Ok (ToolRegistry.error_result describe e), w) ->
            fst out = Ok (Some (describe e))
            ∧ conversations (snd out)
              = conversations st ++ [Message.mk "user" (describe e)]
            ∧ world (snd out) = w).
  { intros e w Hrun. subst out.
    rewrite (execute_tool_returned self tool params st _ w Hrun). simpl.
    specialize (Herr e). simpl in Herr. rewrite Herr. simpl. auto. }
  split; [|split].
  - subst out.
    destruct (ToolManager.execute_tool (ReplyHandler.tool_manager self)
                tool params (world st)) as [[result|e] w] eqn:Hrun.
    + rewrite (execute_tool_returned self tool params st result w Hrun).
      simpl. eauto.
    + exfalso. subst self. simpl in Hrun.
      unfold ToolRegistry.execute_tool in Hrun.
      destruct (ToolRegistry.resolve registry tool) as [e'|run];
        [discriminate|].
      destruct (run params (world st)) as [[e'|result] w']; discriminate.
  - intros Hnone. apply Hfail.
    unfold ToolRegistry.execute_tool, ToolRegistry.resolve. rewrite Hnone.
    reflexivity.
  - intros d e w Hd Hrun. apply Hfail.
    unfold ToolRegistry.execute_tool, ToolRegistry.resolve. rewrite Hd, Hrun.
    reflexivity.
Qed.

(** *** Sessions *)

Lemma added_messages_app (cs1 cs2 : list Call) :
  added_messages (cs1 ++ cs2) = added_messages cs1 ++ added_messages cs2.
Proof. apply omap_app. Qed.

(** One operation extends the call trace, and extends the conversation by
    the messages it handed to [add_message], in that order. *)
Lemma perform_appends self (op : Operation) st :
  ∃ new, calls (perform self op st) = calls st ++ new
         ∧ conversations (perform self op st)
           = conversations st ++ added_messages new.
Proof.
  destruct op as [response|tool params|tool]; cbn [perform].
  - rewrite process_response_run. simpl. eexists. split; [reflexivity|].
    reflexivity.
  - destruct (ToolManager.execute_tool (ReplyHandler.tool_manager self)
                tool params (world st)) as [[result|e] w] eqn:Hrun.
    + rewrite (execute_tool_returned _ _ _ _ _ _ Hrun). simpl.
      eexists. split; [reflexivity|].
      destruct (truthy (ToolResult.message result)),
        (truthy (ToolResult.data result)); reflexivity.
    + rewrite (execute_tool_raised _ _ _ _ _ _ Hrun). simpl.
      eexists. split; [reflexivity|]. simpl. symmetry. apply app_nil_r.
  - rewrite handle_tool_denial_run. simpl. eexists. split; reflexivity.
Qed.

Lemma get_next_response_call self st :
  calls (snd (ReplyHandler.get_next_response self st))
  = calls st ++ [chat_call (conversations st)].
Proof.
  unfold ReplyHandler.get_next_response, bind, ConversationHistory.get_context,
    LLMClient_call_chat.
  destruct (LLMClient.chat _ _ _) as [r w]. reflexivity.
Qed.

(** C7: over any sequence of [process_response], [execute_tool] and
    [handle_tool_denial] calls, the conversation only grows at its end: it is
    the conversation before, followed by the messages handed to
    [add_message] in the order of the calls; and the context that the next
    [get_next_response] sends to the model is exactly that sequence. *)
Theorem conversation_append_only self (ops : list Operation) st :
  let st' := perform_all self ops st in
  ∃ new,
    calls st' = calls st ++ new
    ∧ conversations st' = conversations st ++ added_messages new
    ∧ calls (snd (ReplyHandler.get_next_response self st'))
      = calls st' ++ [chat_call (conversations st ++ added_messages new)].
Proof.
  simpl. revert st. induction ops as [|op ops IH]; intros st; simpl.
  - exists []. rewrite get_next_response_call. simpl. rewrite !app_nil_r. auto.
  - destruct (perform_appends self op st) as (new1 & Hc1 & Hm1).
    destruct (IH (perform self op st)) as (new2 & Hc2 & Hm2 & Hnext).
    exists (new1 ++ new2).
    rewrite Hc2, Hm2, Hc1, Hm1, added_messages_app, <- !app_assoc.
    split; [reflexivity|]. split; [reflexivity|].
    rewrite Hnext, Hc2, Hm1, Hc1, <- !app_assoc. reflexivity.
Qed.

End HandlerFacts.

(** * The properties on sample inputs *)

Lemma process_response_classification_witness :
  fst (ReplyHandler.process_response sample_handler
         "<read_file><path>notes.txt</path></read_file>" (fresh []))
  = Ok (ProcessedResponse.mk TOOL_CALL
          "<read_file><path>notes.txt</path></read_file>"
          (Some "read_file") (Some {[ "path" := "notes.txt" ]}))
  ∧ fst (ReplyHandler.process_response sample_handler "All done." (fresh []))
    = Ok (ProcessedResponse.mk FINAL_RESPONSE "All done." None None).
Proof.
  split.
  - apply (proj1 (process_response_classification sample_handler
                    "<read_file><path>notes.txt</path></read_file>" (fresh []))).
    + reflexivity.
    + discriminate.
  - apply (proj2 (process_response_classification sample_handler
                    "All done." (fresh []))).
    reflexivity.
Defined.

Lemma process_response_empty_tool_name_witness :
  fst (ToolManager.parse_tool_use (ReplyHandler.tool_manager sample_handler)
         "<><path>notes.txt</path></>") = Some ""
  ∧ fst (ReplyHandler.process_response sample_handler
           "<><path>notes.txt</path></>" (fresh []))
    = Ok (ProcessedResponse.mk FINAL_RESPONSE "<><path>notes.txt</path></>"
            None None).
Proof.
  split; [reflexivity|].
  apply (process_response_empty_tool_name sample_handler
           "<><path>notes.txt</path></>" (fresh [])).
  reflexivity.
Defined.

(** C4 as the claim has it fails: the sample [read_file] returns a message
    and, for an empty file, the empty text as data.  Both fields are present,
    yet the conversation grows by one message, not by two. *)
Lemma execute_tool_empty_data_not_appended :
  let result := ToolResult.mk (Some "File read successfully") (Some "") in
  ToolManager.execute_tool sample_tools "read_file" {[ "path" := "empty.txt" ]}
    (world (fresh []))
  = (Ok result, world (fresh []))
  ∧ is_Some (ToolResult.message result)
  ∧ is_Some (ToolResult.data result)
  ∧ conversations
      (snd (ReplyHandler.execute_tool sample_handler "read_file"
              {[ "path" := "empty.txt" ]} (fresh [])))
    = [Message.mk "user" "File read successfully"]
  ∧ conversations
      (snd (ReplyHandler.execute_tool sample_handler "read_file"
              {[ "path" := "empty.txt" ]} (fresh [])))
    ≠ [Message.mk "user" "File read successfully"; Message.mk "user" ""].
Proof.
  simpl. split; [reflexivity|]. split; [eexists; reflexivity|].
  split; [eexists; reflexivity|]. split; [reflexivity|discriminate].
Qed.

Lemma execute_tool_appends_nonempty_fields_witness :
  let result := ToolResult.mk (Some "Read notes.txt") (Some "hello") in
  ToolManager.execute_tool (ReplyHandler.tool_manager sample_registry_handler)
    "read_file" {[ "path" := "notes.txt" ]} (world (fresh []))
  = (Ok result, world (fresh []))
  ∧ conversations
      (snd (ReplyHandler.execute_tool sample_registry_handler "read_file"
              {[ "path" := "notes.txt" ]} (fresh [])))
    = [Message.mk "user" "Read notes.txt"; Message.mk "user" "hello"].
Proof.
  assert (Hrun :
    ToolManager.execute_tool (ReplyHandler.tool_manager sample_registry_handler)
      "read_file" {[ "path" := "notes.txt" ]} (world (fresh []))
    = (Ok (ToolResult.mk (Some "Read notes.txt") (Some "hello")),
       world (fresh []))).
  { vm_compute. reflexivity. }
  split; [exact Hrun|].
  apply (proj1 (execute_tool_appends_nonempty_fields sample_registry_handler
                  "read_file" {[ "path" := "notes.txt" ]} (fresh []) _ _ Hrun)
           "Read notes.txt" "hello").
  - split; [reflexivity|discriminate].
  - split; [reflexivity|discriminate].
Defined.

Lemma sample_describe_nonempty (e : ToolRegistry.ToolError) :
  sample_describe e ≠ "".
Proof. destruct e; discriminate. Defined.

Lemma execute_tool_recovers_failures_witness :
  (∀ e, sample_describe e ≠ "")
  ∧ ReplyHandler.execute_tool sample_registry_handler "delete_everything" ∅
      (fresh [])
    = (Ok (Some "Unknown tool: delete_everything"),
       mkState [Message.mk "user" "Unknown tool: delete_everything"]
         (mkWorld [] [] tt)
         [execute_tool_call "delete_everything" ∅;
          add_message_call "user" "Unknown tool: delete_everything"])
  ∧ fst (ReplyHandler.execute_tool sample_registry_handler "read_file" ∅
           (fresh []))
    = Ok (Some "Error executing tool: missing path").
Proof.
  split; [exact sample_describe_nonempty|]. split; [vm_compute; reflexivity|].
  destruct (execute_tool_recovers_failures sample_registry sample_describe
              sample_parse no_backend "read_file" ∅ (fresh [])
              sample_describe_nonempty) as (_ & _ & Hfail).
  destruct (sample_registry !! "read_file") as [d|] eqn:Hd;
    [|vm_compute in Hd; discriminate].
  apply (Hfail d (ToolRegistry.ToolExecutionError "missing path")
           (world (fresh [])) eq_refl).
  vm_compute in Hd. injection Hd as <-. reflexivity.
Defined.

(** * Further properties of the handler *)

(** ** The permission gate: answers, end of input, frame *)

Section AnswerFacts.

Lemma isspace_lower_char (c : ascii) :
  Str.isspace c = true -> Str.lower_char c = c.
Proof.
  destruct c as [b0 b1 b2 b3 b4 b5 b6 b7].
  destruct b0, b1, b2, b3, b4, b5, b6, b7; vm_compute;
    intros H; first [reflexivity | discriminate H].
Qed.

Lemma no_space_lower (w : string) :
  no_space (Str.lower w) = true -> no_space w = true.
Proof.
  induction w as [|c w IH]; simpl; [reflexivity|].
  intros [Hc Hw]%andb_prop. rewrite (IH Hw), andb_true_r.
  destruct (Str.isspace c) eqn:Hsp; [|reflexivity].
  rewrite (isspace_lower_char c Hsp), Hsp in Hc. discriminate.
Qed.

Lemma lstrip_all_space (ws s : string) :
  all_space ws = true -> Str.lstrip (ws +:+ s) = Str.lstrip s.
Proof.
  induction ws as [|c ws IH]; simpl; [reflexivity|].
  intros [Hc Hws]%andb_prop. rewrite Hc. exact (IH Hws).
Qed.

Lemma rstrip_all_space (ws : string) :
  all_space ws = true -> Str.rstrip ws = EmptyString.
Proof.
  induction ws as [|c ws IH]; simpl; [reflexivity|].
  intros [Hc Hws]%andb_prop. rewrite (IH Hws), Hc. reflexivity.
Qed.

Lemma rstrip_app_all_space (s ws : string) :
  all_space ws = true -> Str.rstrip (s +:+ ws) = Str.rstrip s.
Proof.
  intros Hws. induction s as [|c s IH]; simpl.
  - exact (rstrip_all_space ws Hws).
  - rewrite IH. reflexivity.
Qed.

Lemma rstrip_no_space (w : string) : no_space w = true -> Str.rstrip w = w.
Proof.
  induction w as [|c w IH]; simpl; [reflexivity|].
  intros [Hc Hw]%andb_prop. rewrite (IH Hw).
  apply negb_true_iff in Hc. destruct w; [rewrite Hc|]; reflexivity.
Qed.

(** Whitespace around a word without whitespace is trimmed away, and the
    word is then lower-cased. *)
Lemma normalised_padded (ws1 w ws2 : string) :
  all_space ws1 = true -> all_space ws2 = true ->
  w ≠ EmptyString -> no_space (Str.lower w) = true ->
  normalised (ws1 +:+ w +:+ ws2) = Str.lower w.
Proof.
  intros H1 H2 Hne Hw%no_space_lower. unfold normalised, Str.strip.
  rewrite (lstrip_all_space ws1 _ H1).
  destruct w as [|c w]; [contradiction|].
  pose proof Hw as Hw'. simpl in Hw'. apply andb_prop in Hw' as [Hc _].
  apply negb_true_iff in Hc.
  change (String c w +:+ ws2) with (String c (w +:+ ws2)).
  cbn [Str.lstrip]. rewrite Hc.
  change (String c (w +:+ ws2)) with (String c w +:+ ws2).
  rewrite (rstrip_app_all_space _ ws2 H2), (rstrip_no_space _ Hw).
  reflexivity.
Qed.

Lemma answer_word (w : string) :
  Str.lower w ∈ ["yes"; "no"] ->
  w ≠ EmptyString ∧ no_space (Str.lower w) = true.
Proof.
  intros Hin. split.
  - intros ->. simpl in Hin. apply list_elem_of_In in Hin. simpl in Hin.
    destruct Hin as [H|[H|[]]]; discriminate H.
  - apply list_elem_of_In in Hin. simpl in Hin.
    destruct Hin as [<-|[<-|[]]]; reflexivity.
Qed.

Lemma drop_past_first {A} (pre : list A) (x : A) (post : list A) :
  drop (S (length pre)) (pre ++ x :: post) = post.
Proof. induction pre as [|a pre IH]; simpl; [reflexivity|exact IH]. Qed.

End AnswerFacts.

Section GateFrame.
Context {Env : Type}.
Implicit Types (st : State Env).

(** X1: [_ask_permission] raises exactly when no line of the input is
    decisive, and the exception is then EOFError: every line has been read,
    each was answered by the reminder, and the prompt was written once more
    than there were lines. *)
Theorem ask_permission_eof_iff_no_answer (tool : string) st :
  ((∃ e, fst (ReplyHandler._ask_permission tool st) = Raise e)
   ↔ Forall (fun l => ¬ decisive l) (stdin (world st)))
  ∧ (Forall (fun l => ¬ decisive l) (stdin (world st)) ->
     ReplyHandler._ask_permission tool st
     = (Raise EOFError,
        mkState (conversations st)
          (mkWorld []
             (stdout (world st) ++ reprompts tool (length (stdin (world st)))
                ++ [ReplyHandler.permission_prompt tool])
             (env (world st)))
          (calls st))).
Proof.
  assert (Hall : Forall (fun l => ¬ decisive l) (stdin (world st)) ->
     ReplyHandler._ask_permission tool st
     = (Raise EOFError,
        mkState (conversations st)
          (mkWorld []
             (stdout (world st) ++ reprompts tool (length (stdin (world st)))
                ++ [ReplyHandler.permission_prompt tool])
             (env (world st)))
          (calls st))).
  { intros Hnone. unfold ReplyHandler._ask_permission.
    rewrite (ask_permission_loop_eof tool _ _ Hnone). reflexivity. }
  split; [split|exact Hall].
  - intros [e He].
    destruct (first_decisive_split (stdin (world st)))
      as [Hnone|(pre & x & post & Hin & Hpre & Hx)]; [exact Hnone|].
    unfold ReplyHandler._ask_permission in He.
    rewrite Hin, (ask_permission_loop_decisive tool pre x post _ Hpre Hx) in He.
    simpl in He. discriminate He.
  - intros Hnone. exists EOFError. rewrite (Hall Hnone). reflexivity.
Qed.

(** X2: whatever the input, [_ask_permission] leaves the conversation, the
    call trace and the outside world alone; for some number k of rejected
    lines it writes k times prompt and reminder and then one more prompt,
    and it takes the first k+1 lines off the input (all of them when fewer
    are left). *)
Theorem ask_permission_frame (tool : string) st :
  let out := snd (ReplyHandler._ask_permission tool st) in
  conversations out = conversations st
  ∧ calls out = calls st
  ∧ env (world out) = env (world st)
  ∧ ∃ k, k ≤ length (stdin (world st))
         ∧ stdin (world out) = drop (S k) (stdin (world st))
         ∧ stdout (world out)
           = stdout (world st) ++ reprompts tool k
               ++ [ReplyHandler.permission_prompt tool].
Proof.
  unfold ReplyHandler._ask_permission.
  destruct (first_decisive_split (stdin (world st)))
    as [Hnone|(pre & x & post & Hin & Hpre & Hx)].
  - rewrite (ask_permission_loop_eof tool _ _ Hnone). simpl.
    repeat split. exists (length (stdin (world st))).
    split; [reflexivity|]. split; [|reflexivity].
    symmetry. apply drop_ge. apply Nat.le_succ_diag_r.
  - rewrite Hin, (ask_permission_loop_decisive tool pre x post _ Hpre Hx).
    simpl. repeat split. exists (length pre).
    split; [rewrite length_app; apply Nat.le_add_r|].
    split; [|reflexivity]. symmetry. apply drop_past_first.
Qed.

(** X3: an answer is read without regard to letter case and to whitespace
    around it: when the next line is a word that lower-cases to yes or to no,
    with only whitespace before and after it, [_ask_permission] returns at
    once, True for yes and False for no, and the lines after it stay
    unread. *)
Theorem ask_permission_accepts_padded_answer (tool : string) st
  (ws1 w ws2 : string) (rest : list string) :
  all_space ws1 = true ->
  all_space ws2 = true ->
  Str.lower w ∈ ["yes"; "no"] ->
  stdin (world st) = (ws1 +:+ w +:+ ws2) :: rest ->
  let out := ReplyHandler._ask_permission tool st in
  fst out = Ok (bool_decide (Str.lower w = "yes"))
  ∧ stdin (world (snd out)) = rest
  ∧ stdout (world (snd out))
    = stdout (world st) ++ [ReplyHandler.permission_prompt tool].
Proof.
  intros H1 H2 Hw Hin.
  destruct (answer_word w Hw) as [Hne Hns].
  pose proof (normalised_padded ws1 w ws2 H1 H2 Hne Hns) as Hnorm.
  assert (Hdec : decisive (ws1 +:+ w +:+ ws2)).
  { unfold decisive. rewrite Hnorm. exact Hw. }
  unfold ReplyHandler._ask_permission.
  rewrite Hin.
  rewrite (ask_permission_loop_decisive tool [] _ rest _ (List.Forall_nil _) Hdec).
  simpl. rewrite Hnorm. auto.
Qed.

End GateFrame.

Lemma ask_permission_eof_iff_no_answer_witness :
  Forall (fun l => ¬ decisive l) (stdin (world (fresh ["maybe"; "y"])))
  ∧ ReplyHandler._ask_permission "read_file" (fresh ["maybe"; "y"])
    = (Raise EOFError,
       mkState []
         (mkWorld []
            ([] ++ reprompts "read_file" 2
                ++ [ReplyHandler.permission_prompt "read_file"]) tt) []).
Proof.
  assert (H : Forall (fun l => ¬ decisive l) (stdin (world (fresh ["maybe"; "y"])))).
  { repeat constructor; apply (bool_decide_eq_false_1 _); vm_compute; reflexivity. }
  split; [exact H|].
  exact (proj2 (ask_permission_eof_iff_no_answer "read_file"
                  (fresh ["maybe"; "y"])) H).
Defined.

Lemma ask_permission_accepts_padded_answer_witness :
  (all_space "  " = true ∧ all_space " " = true
   ∧ Str.lower "No" ∈ ["yes"; "no"])
  ∧ fst (ReplyHandler._ask_permission "write_file" (fresh ["  No "; "yes"]))
    = Ok false.
Proof.
  assert (Hw : Str.lower "No" ∈ ["yes"; "no"]).
  { apply (bool_decide_eq_true_1 _). vm_compute. reflexivity. }
  split; [split; [reflexivity|split; [reflexivity|exact Hw]]|].
  exact (proj1 (ask_permission_accepts_padded_answer "write_file"
                  (fresh ["  No "; "yes"]) "  " "No" " " ["yes"]
                  eq_refl eq_refl Hw eq_refl)).
Defined.

(** ** The methods: shapes of results, failures, composition *)

Section MethodFacts.
Context {Env : Type}.
Implicit Types (self : ReplyHandler.t Env) (st : State Env).

(** X4: the result of [process_response] always has the response as its
    content, and its type and its tool fields agree: a TOOL_CALL carries a
    tool name with at least one character, together with whatever parameters
    the parser gave; a FINAL_RESPONSE carries neither a name nor parameters,
    also when the parser had returned parameters. *)
Theorem process_response_result_shape self (response : string) st :
  ∃ r, fst (ReplyHandler.process_response self response st) = Ok r
       ∧ ProcessedResponse.content r = response
       ∧ ((ProcessedResponse.type r = TOOL_CALL
           ∧ ∃ name, name ≠ ""
                     ∧ ProcessedResponse.tool_name r = Some name
                     ∧ ToolManager.parse_tool_use
                         (ReplyHandler.tool_manager self) response
                       = (Some name, ProcessedResponse.tool_params r))
          ∨ (ProcessedResponse.type r = FINAL_RESPONSE
             ∧ ProcessedResponse.tool_name r = None
             ∧ ProcessedResponse.tool_params r = None
             ∧ no_text (fst (ToolManager.parse_tool_use
                               (ReplyHandler.tool_manager self) response)))).
Proof.
  rewrite process_response_run. simpl.
  destruct (ToolManager.parse_tool_use _ response) as [[[|c name]|] params];
    simpl; eexists; (split; [reflexivity|]); (split; [reflexivity|]).
  - right. repeat split. right. reflexivity.
  - left. split; [reflexivity|]. exists (String c name).
    split; [discriminate|]. split; reflexivity.
  - right. repeat split. left. reflexivity.
Qed.

(** X5: [get_next_response] does not touch the conversation, and followed
    by [process_response] on its result it makes one turn: when the backend
    answers, the conversation grows by that answer as one assistant message
    and the content of the result is the answer; when the backend raises,
    the exception comes out, the parser is never called and the conversation
    is as before. *)
Theorem next_response_then_process self st :
  let turn :=
    bind (ReplyHandler.get_next_response self)
         (ReplyHandler.process_response self) in
  conversations (snd (ReplyHandler.get_next_response self st))
  = conversations st
  ∧ match LLMClient.chat (ReplyHandler.api_handler self)
            (conversations st) (world st) with
    | (Ok reply, w) =>
        fst (ReplyHandler.get_next_response self st) = Ok reply
        ∧ conversations (snd (turn st))
          = conversations st ++ [Message.mk "assistant" reply]
        ∧ world (snd (turn st)) = w
        ∧ calls (snd (turn st))
          = calls st ++ [chat_call (conversations st);
                         add_message_call "assistant" reply;
                         parse_tool_use_call reply]
        ∧ ∃ r, fst (turn st) = Ok r ∧ ProcessedResponse.content r = reply
    | (Raise e, w) =>
        turn st
        = (Raise e,
           mkState (conversations st) w
             (calls st ++ [chat_call (conversations st)]))
    end.
Proof.
  unfold bind at 1.
  unfold ReplyHandler.get_next_response, bind,
    ConversationHistory.get_context, LLMClient_call_chat.
  destruct (LLMClient.chat _ _ _) as [[reply|e] w]; simpl;
    (split; [reflexivity|]); [|reflexivity].
  rewrite process_response_run. simpl. rewrite <- app_assoc. simpl.
  repeat split.
  destruct (ToolManager.parse_tool_use _ reply) as [tool params].
  destruct (truthy tool); eexists; split; reflexivity.
Qed.

(** X6: [execute_tool] raises exactly when the tool manager raises, with
    the same exception, and in that case nothing is added to the
    conversation. *)
Theorem execute_tool_raises_iff_manager_raises self (tool : string)
  (params : Params) st (e : Exn) :
  let out := ReplyHandler.execute_tool self tool params st in
  (fst out = Raise e
   ↔ fst (ToolManager.execute_tool (ReplyHandler.tool_manager self)
            tool params (world st)) = Raise e)
  ∧ (fst out = Raise e -> conversations (snd out) = conversations st).
Proof.
  destruct (ToolManager.execute_tool (ReplyHandler.tool_manager self)
              tool params (world st)) as [[result|e'] w] eqn:Hrun; simpl.
  - rewrite (execute_tool_returned _ _ _ _ _ _ Hrun). simpl.
    split; [split|]; intros H; discriminate H.
  - rewrite (execute_tool_raised _ _ _ _ _ _ Hrun). simpl.
    split; [split; intros [= ->]; reflexivity|reflexivity].
Qed.


(** X8: two denials leave the same conversation exactly when the two tool
    names render to the same text: different names give different messages,
    while None cannot be told from a tool whose name is the text None. *)
Theorem handle_tool_denial_message_tells_tool self (tool1 tool2 : option string) st :
  conversations (snd (ReplyHandler.handle_tool_denial self tool1 st))
  = conversations (snd (ReplyHandler.handle_tool_denial self tool2 st))
  ↔ py_str tool1 = py_str tool2.
Proof.
  rewrite !handle_tool_denial_run. simpl. split.
  - intros H. apply app_inv_head in H. injection H as H. exact H.
  - intros ->. reflexivity.
Qed.

(** *** Sessions *)

Lemma assistant_messages_app (ms1 ms2 : list Message.t) :
  assistant_messages (ms1 ++ ms2)
  = assistant_messages ms1 ++ assistant_messages ms2.
Proof. apply omap_app. Qed.

Lemma tool_executions_app (cs1 cs2 : list Call) :
  tool_executions (cs1 ++ cs2) = tool_executions cs1 ++ tool_executions cs2.
Proof. apply omap_app. Qed.

(** What one operation does to the store, case by case. *)
Lemma perform_summary self (op : Operation) st :
  assistant_messages (conversations (perform self op st))
  = assistant_messages (conversations st) ++ processed_responses [op]
  ∧ tool_executions (calls (perform self op st))
    = tool_executions (calls st) ++ executed_tools [op]
  ∧ (executed_tools [op] = [] -> world (perform self op st) = world st).
Proof.
  destruct op as [response|tool params|tool]; cbn [perform].
  - rewrite process_response_run. simpl.
    rewrite assistant_messages_app, tool_executions_app. simpl.
    rewrite app_nil_r. auto.
  - destruct (ToolManager.execute_tool (ReplyHandler.tool_manager self)
                tool params (world st)) as [[result|e] w] eqn:Hrun.
    + rewrite (execute_tool_returned _ _ _ _ _ _ Hrun). simpl.
      rewrite assistant_messages_app, tool_executions_app.
      destruct (truthy (ToolResult.message result)),
        (truthy (ToolResult.data result)); simpl;
        rewrite app_nil_r; (split; [reflexivity|]);
        (split; [reflexivity|]); intros H; discriminate H.
    + rewrite (execute_tool_raised _ _ _ _ _ _ Hrun). simpl.
      rewrite tool_executions_app, app_nil_r. simpl.
      split; [reflexivity|]. split; [reflexivity|]. intros H; discriminate H.
  - rewrite handle_tool_denial_run. simpl.
    rewrite assistant_messages_app, tool_executions_app. simpl.
    rewrite !app_nil_r. auto.
Qed.

(** X9: over any sequence of operations, the assistant messages of the
    conversation are those it had before followed by exactly the responses
    handed to [process_response], in the order of the calls: tool results
    and denials never enter as assistant messages. *)
Theorem session_assistant_messages self (ops : list Operation) st :
  assistant_messages (conversations (perform_all self ops st))
  = assistant_messages (conversations st) ++ processed_responses ops.
Proof.
  revert st. induction ops as [|op ops IH]; intros st; simpl.
  - symmetry. apply app_nil_r.
  - rewrite IH. destruct (perform_summary self op st) as (-> & _ & _).
    rewrite <- app_assoc. f_equal.
    exact (eq_sym (omap_app _ [op] ops)).
Qed.

(** X10: over any sequence of operations, the tool manager is asked to
    execute exactly the tools handed to [execute_tool], once each, with the
    same parameters and in the same order; [process_response] and
    [handle_tool_denial] never execute a tool. *)
Theorem session_tool_executions self (ops : list Operation) st :
  tool_executions (calls (perform_all self ops st))
  = tool_executions (calls st) ++ executed_tools ops.
Proof.
  revert st. induction ops as [|op ops IH]; intros st; simpl.
  - symmetry. apply app_nil_r.
  - rewrite IH. destruct (perform_summary self op st) as (_ & -> & _).
    rewrite <- app_assoc. f_equal.
    exact (eq_sym (omap_app _ [op] ops)).
Qed.

(** X11: a sequence of operations without any [execute_tool] leaves the
    console and the outside world exactly as they were. *)
Theorem session_without_execution_keeps_world self (ops : list Operation) st :
  executed_tools ops = [] ->
  world (perform_all self ops st) = world st.
Proof.
  revert st. induction ops as [|op ops IH]; intros st Hnone; simpl.
  - reflexivity.
  - assert (Hsplit : executed_tools (op :: ops)
                     = executed_tools [op] ++ executed_tools ops)
      by exact (omap_app _ [op] ops).
    rewrite Hsplit in Hnone. apply app_eq_nil in Hnone as [Hop Hops].
    rewrite (IH _ Hops).
    destruct (perform_summary self op st) as (_ & _ & Hw). exact (Hw Hop).
Qed.

End MethodFacts.

Lemma execute_tool_raises_iff_manager_raises_witness :
  fst (ReplyHandler.execute_tool (ReplyHandler.mk no_backend failing_tools)
         "read_file" ∅ (fresh []))
  = Raise (Exception "tool crashed")
  ∧ conversations
      (snd (ReplyHandler.execute_tool (ReplyHandler.mk no_backend failing_tools)
              "read_file" ∅ (fresh [])))
    = conversations (fresh []).
Proof.
  assert (H : fst (ReplyHandler.execute_tool
                     (ReplyHandler.mk no_backend failing_tools)
                     "read_file" ∅ (fresh []))
              = Raise (Exception "tool crashed")).
  { apply (proj1 (execute_tool_raises_iff_manager_raises
                    (ReplyHandler.mk no_backend failing_tools)
                    "read_file" ∅ (fresh []) (Exception "tool crashed"))).
    reflexivity. }
  split; [exact H|].
  exact (proj2 (execute_tool_raises_iff_manager_raises
                  (ReplyHandler.mk no_backend failing_tools)
                  "read_file" ∅ (fresh []) (Exception "tool crashed")) H).
Defined.


Lemma session_without_execution_keeps_world_witness :
  executed_tools [process_response_op "All done.";
                  handle_tool_denial_op (Some "read_file")] = []
  ∧ world (perform_all sample_handler
             [process_response_op "All done.";
              handle_tool_denial_op (Some "read_file")]
             (fresh ["yes"]))
    = world (fresh ["yes"]).
Proof.
  split; [reflexivity|].
  apply (session_without_execution_keeps_world sample_handler
           [process_response_op "All done.";
            handle_tool_denial_op (Some "read_file")] (fresh ["yes"])).
  reflexivity.
Defined.

Lemma execute_tool_returns_message_witness :
  ToolManager.execute_tool (ReplyHandler.tool_manager sample_registry_handler)
    "read_file" {[ "path" := "notes.txt" ]} (world (fresh []))
  = (Ok (ToolResult.mk (Some "Read notes.txt") (Some "hello")),
     world (fresh []))
  ∧ fst (ReplyHandler.execute_tool sample_registry_handler "read_file"
           {[ "path" := "notes.txt" ]} (fresh []))
    = Ok (Some "Read notes.txt")
  ∧ last (conversations
            (snd (ReplyHandler.execute_tool sample_registry_handler "read_file"
                    {[ "path" := "notes.txt" ]} (fresh []))))
    = Some (Message.mk "user" "hello").
Proof.
  assert (Hrun :
    ToolManager.execute_tool (ReplyHandler.tool_manager sample_registry_handler)
      "read_file" {[ "path" := "notes.txt" ]} (world (fresh []))
    = (Ok (ToolResult.mk (Some "Read notes.txt") (Some "hello")),
       world (fresh []))).
  { vm_compute. reflexivity. }
  destruct (proj2 (execute_tool_returns_message sample_registry_handler
                     "read_file" {[ "path" := "notes.txt" ]} (fresh []))
              _ _ Hrun) as (Hret & _ & _ & _ & Hlast).
  split; [exact Hrun|]. split; [exact Hret|].
  apply Hlast. split; [reflexivity|discriminate].
Defined.
